(** * prediction-error/index.js: reward, slack and expectedReward

    A shallow embedding of the numeric core of the prediction-error
    simulation.  JavaScript numbers are idealised as real numbers
    ([R] of the Standard Library): [Math.log] is [ln], [Math.exp] is
    [exp], [Math.abs] is [Rabs].  Rounding of IEEE doubles and the
    values NaN and Infinity are outside this model.  Where the last
    place of a double decides a statement, [Binary64] evaluates the
    arithmetic of [reward] on binary64 numbers. *)

From Stdlib Require Import Reals Lra Lia List String Arith ZArith.
From Stdlib Require Import PrimFloat SpecFloat FloatOps.
Import ListNotations.

Open Scope R_scope.

Set Warnings "-inexact-float".

(** ** lodash helpers *)

Module Lodash.

(** [baseClamp(number, lower, upper)]: first cap by [upper], then
    raise to [lower], with the comparisons lodash uses. *)
Definition clamp (number lower upper : R) : R :=
  let number := if Rle_dec number upper then number else upper in
  if Rge_dec number lower then number else lower.

(** [baseSum(array, identity)]: the running result starts as the first
    element and the others are added to it from left to right. *)
Definition baseSum (x : R) (xs : list R) : R := fold_left Rplus xs x.

(** [_.mean(array)] is [baseMean(array, identity)]:
    [length ? baseSum(array) / length : NaN].  [None] stands for the NaN
    of an empty array. *)
Definition mean (array : list R) : option R :=
  match array with
  | [] => None
  | x :: xs => Some (baseSum x xs / INR (List.length array))
  end.

(** [baseTimes(n, iteratee)]: [result[index] = iteratee(index)] for
    [index] from 0 to [n - 1], in this order.  The iteratees of index.js
    draw random events, so the state [St] of the random source is
    threaded through the calls. *)
Fixpoint baseTimes {St A : Type} (n index : nat)
    (iteratee : nat -> St -> A * St) (s : St) : list A * St :=
  match n with
  | O => ([], s)
  | S n' =>
      let (a, s1) := iteratee index s in
      let (rest, s2) := baseTimes n' (S index) iteratee s1 in
      (a :: rest, s2)
  end.

(** [_.times(n, iteratee)] for an array length below 2^32 - 1. *)
Definition times {St A : Type} (n : nat)
    (iteratee : nat -> St -> A * St) (s : St) : list A * St :=
  baseTimes n 0 iteratee s.

End Lodash.

(** ** The numeric functions of index.js *)

(** [var prec = 0.0001;] inside [reward]. *)
Definition prec : R := 0.0001.

(** [reward(prior, p)], index.js lines 44-53. *)
Definition reward (prior p : R) : R :=
  let prior := Lodash.clamp prior prec (1 - prec) in
  let p := Lodash.clamp p prec (1 - prec) in
  ln (p / (1 - p)) - ln (prior / (1 - prior)).

(** [slack(x)], index.js lines 55-60. *)
Definition slack (x : R) : R :=
  let lnx := ln x in
  0.95 * exp ((- lnx) * lnx / 6).

(** ** The Categorical interface used by expectedReward

    [expectedReward] only calls [events()] on the population and
    [prob(ev)] on both arguments; any object with these two methods
    can be passed. *)

Class CategoricalLike (Ev D : Type) : Type := {
  events : D -> list Ev;
  prob : D -> Ev -> R
}.

(** [expectedReward(pop, sam)], index.js lines 62-83.
    [evs.reduce(f, 0)] is a left fold from 0; [evs.length] is the
    length of the population's event array. *)
Definition expectedReward {Ev D : Type} `{CategoricalLike Ev D}
    (pop sam : D) : R :=
  let evs := events pop in
  fold_left
    (fun acc ev =>
       let pp := prob pop ev in
       let p := prob sam ev in
       let rew := Rabs (reward pp p) in
       acc + rew / INR (List.length evs))
    evs 0.

(** ** Categorical *)

Module Categorical.

(** Modelled from the spec: the [Categorical] class of the [lately]
    package, which index.js requires and which is not among the
    sources.  A mapping from event to accumulated weight, kept in
    insertion order, and a running total weight. *)
Record t : Type := mk {
  w : list (string * nat);
  wsum : nat
}.

(** [new Categorical()]: created empty. *)
Definition empty : t := mk [] 0.

Fixpoint bump (ev : string) (l : list (string * nat)) : list (string * nat) :=
  match l with
  | [] => [(ev, 1%nat)]
  | (k, n) :: l' =>
      if String.eqb k ev then (k, S n) :: l' else (k, n) :: bump ev l'
  end.

(** [learn(event)]: the weight of [event] and the total grow by 1;
    the entry is created if absent. *)
Definition learn (d : t) (ev : string) : t :=
  mk (bump ev (w d)) (S (wsum d)).

Fixpoint weight (l : list (string * nat)) (ev : string) : nat :=
  match l with
  | [] => 0%nat
  | (k, n) :: l' => if String.eqb k ev then n else weight l' ev
  end.

(** [prob(event)]: weight(event) / total when total > 0, else 0;
    an event never seen has probability 0. *)
Definition prob (d : t) (ev : string) : R :=
  if (0 <? wsum d)%nat then INR (weight (w d) ev) / INR (wsum d) else 0.

(** [events()]: the distinct events observed. *)
Definition events (d : t) : list string := map fst (w d).

(** [weightSum()]: the total accumulated weight. *)
Definition weightSum (d : t) : R := INR (wsum d).

(** [pop.forEach(function (ev) { popcat.learn(ev); })] on a fresh
    Categorical, as the driver trains both kinds of distribution. *)
Definition train (pop : list string) : t := fold_left learn pop empty.

End Categorical.

#[export] Instance Categorical_like : CategoricalLike string Categorical.t := {
  events := Categorical.events;
  prob := Categorical.prob
}.

(** ** The experiment driver, index.js lines 99-160 *)

Module Driver.

Definition A : string := "a".
Definition B : string := "b".
Definition C : string := "c".
Definition D : string := "d".
Definition E : string := "e".

Definition populations : list (list string) :=
  [ [A; B];
    [A; B; C];
    [A; B; C; D; E];
    [A; A; A; A; A; A; A; B; C; D] ].

Definition SAMPLE_SIZES : list nat := [2; 4; 8; 16; 32; 64; 128; 256; 512]%nat.

Definition SAMPLES_PER_SIZE : nat := 1000.

(** The driver is random only through [popcat.sample()].  A run is
    modelled against the sequence of events these calls return: the
    state is the number of calls made so far. *)
Definition Rand (T : Type) : Type := nat -> T * nat.

Definition ret {T : Type} (t : T) : Rand T := fun k => (t, k).

Definition bind {T U : Type} (m : Rand T) (f : T -> Rand U) : Rand U :=
  fun k => let (t, k') := m k in f t k'.

Notation "x <- m ;; f" := (bind m (fun x => f))
  (at level 61, m at next level, right associativity).

(** [array.map(f)] with an [f] that draws: left to right. *)
Fixpoint mapM {T U : Type} (f : T -> Rand U) (l : list T) : Rand (list U) :=
  match l with
  | [] => ret []
  | t :: l' => u <- f t ;; us <- mapM f l' ;; ret (u :: us)
  end.

Section Run.

(** [draws k] is what the [k]-th call of [popcat.sample()] returns. *)
Variable draws : nat -> string.

Definition sample_call : Rand string := fun k => (draws k, S k).

(** [_.times(sampleSize, function () { return popcat.sample(); })]. *)
Definition takeSample (sampleSize : nat) : Rand (list string) :=
  Lodash.times sampleSize (fun _ => sample_call).

(** The iteratee of [exRews], lines 110-124. *)
Definition exRew (popcat : Categorical.t) (sampleSize : nat) : Rand R :=
  sample <- takeSample sampleSize ;;
  let samcat := Categorical.train sample in
  ret (expectedReward popcat samcat).

(** The iteratee of [slackRews], lines 128-148. *)
Definition slackRew (popcat : Categorical.t) (sampleSize : nat) : Rand R :=
  sample <- takeSample sampleSize ;;
  let samcat := Categorical.train sample in
  let rew := expectedReward popcat samcat in
  let slackRew := rew + slack (Categorical.weightSum samcat) in
  ret slackRew.

(** The callback of [SAMPLE_SIZES.map], lines 107-155:
    [[sampleSize, exexRew, exSlackRew, exRews]]. *)
Definition triple (popcat : Categorical.t) (sampleSize : nat)
  : Rand (nat * option R * option R * list R) :=
  exRews <- Lodash.times SAMPLES_PER_SIZE (fun _ => exRew popcat sampleSize) ;;
  slackRews <-
    Lodash.times SAMPLES_PER_SIZE (fun _ => slackRew popcat sampleSize) ;;
  let exexRew := Lodash.mean exRews in
  let exSlackRew := Lodash.mean slackRews in
  ret (sampleSize, exexRew, exSlackRew, exRews).

(** The callback of [populations.map], lines 99-155, up to the entropy
    (a method of [Categorical] that the driver only passes on). *)
Definition triples (pop : list string)
  : Rand (list (nat * option R * option R * list R)) :=
  let popcat := Categorical.train pop in
  mapM (triple popcat) SAMPLE_SIZES.

End Run.

(** The fields of a triple as the reporter reads them:
    [tri[0]], [tri[1]], [tri[2]], [tri[3]]. *)
Definition tri_sampleSize (tri : nat * option R * option R * list R) : nat :=
  let '(sampleSize, _, _, _) := tri in sampleSize.


Definition tri_exSlackRew (tri : nat * option R * option R * list R) : option R :=
  let '(_, _, exSlackRew, _) := tri in exSlackRew.

Definition tri_exRews (tri : nat * option R * option R * list R) : list R :=
  let '(_, _, _, exRews) := tri in exRews.

(** The sample that [sampleSize] calls of [popcat.sample()] give when
    [k] calls were made before. *)
Definition sampleAt (draws : nat -> string) (sampleSize k : nat) : list string :=
  map draws (seq k sampleSize).

(** The expected reward of the candidate trained on that sample. *)
Definition rewardAt (draws : nat -> string) (popcat : Categorical.t)
    (sampleSize k : nat) : R :=
  expectedReward popcat (Categorical.train (sampleAt draws sampleSize k)).

End Driver.

(** ** reward on binary64 numbers *)

Module Binary64.

(** [baseClamp] on doubles; [number === number] lets NaN through. *)
Definition clamp (number lower upper : float) : float :=
  if PrimFloat.eqb number number then
    let number := if PrimFloat.leb number upper then number else upper in
    if PrimFloat.leb lower number then number else lower
  else number.

(** [var prec = 0.0001;]: the double nearest to 0.0001. *)
Definition prec : float := 0.0001%float.

(** The real number that a finite double is: sign, mantissa and
    binary exponent. *)
Definition finite (s : bool) (m : positive) (e : Z) : R :=
  let v :=
    if (0 <=? e)%Z then IZR (Zpos m * 2 ^ e) else IZR (Zpos m) / IZR (2 ^ (- e))
  in
  if s then - v else v.

(** [Math.log(x)] for a positive finite double [x]: the logarithm of
    the number [x] is, without the rounding of the result (under one
    unit in the last place).  The other arguments (zero, negative,
    infinite, NaN), whose results are not finite numbers, give [None]. *)
Definition log (x : float) : option R :=
  match Prim2SF x with
  | S754_finite false m e => Some (ln (finite false m e))
  | _ => None
  end.

(** [reward(prior, p)], index.js lines 44-53, with the clamp, the
    subtractions [1 - p] and the divisions in binary64.  The last
    subtraction is exact, like the logarithms. *)
Definition reward (prior p : float) : option R :=
  let prior := clamp prior prec (1 - prec)%float in
  let p := clamp p prec (1 - prec)%float in
  match log (p / (1 - p))%float, log (prior / (1 - prior))%float with
  | Some a, Some b => Some (a - b)
  | _, _ => None
  end.

End Binary64.

(** ** Definitions that follow the spec's words *)

(** "clamped into [ε, 1−ε]": the nearest point of the interval. *)
Definition clamped (eps x : R) : R :=
  if Rlt_dec x eps then eps
  else if Rlt_dec (1 - eps) x then 1 - eps
  else x.

(** Glossary: logit / log-odds, [ln(p/(1-p))]. *)
Definition logit (p : R) : R := ln (p / (1 - p)).

(** "the unweighted arithmetic mean": the sum divided by the count. *)
Definition Rsum (l : list R) : R := fold_right Rplus 0 l.

Definition mean (l : list R) : R := Rsum l / INR (List.length l).

(** ** Facts about clamp *)

Lemma prec_pos : 0 < prec.
Proof. unfold prec. lra. Qed.

Lemma prec_lt_half : prec < 1 / 2.
Proof. unfold prec. lra. Qed.

Section ClampFacts.

Variables lower upper : R.
Hypothesis lower_le_upper : lower <= upper.

Lemma clamp_range (x : R) :
  lower <= Lodash.clamp x lower upper <= upper.
Proof.
  unfold Lodash.clamp.
  destruct (Rle_dec x upper); destruct (Rge_dec _ lower); lra.
Qed.

Lemma clamp_id (x : R) :
  lower <= x <= upper -> Lodash.clamp x lower upper = x.
Proof.
  intros Hx. unfold Lodash.clamp.
  destruct (Rle_dec x upper); destruct (Rge_dec _ lower); lra.
Qed.

Lemma clamp_below (x : R) :
  x <= lower -> Lodash.clamp x lower upper = lower.
Proof.
  intros Hx. unfold Lodash.clamp.
  destruct (Rle_dec x upper); destruct (Rge_dec _ lower); lra.
Qed.

Lemma clamp_above (x : R) :
  upper <= x -> Lodash.clamp x lower upper = upper.
Proof.
  intros Hx. unfold Lodash.clamp.
  destruct (Rle_dec x upper); destruct (Rge_dec _ lower); lra.
Qed.

Lemma clamp_mono (x y : R) :
  x <= y -> Lodash.clamp x lower upper <= Lodash.clamp y lower upper.
Proof.
  intros Hxy. unfold Lodash.clamp.
  destruct (Rle_dec x upper); destruct (Rle_dec y upper);
    repeat match goal with |- context [Rge_dec ?a ?b] => destruct (Rge_dec a b) end;
    lra.
Qed.

End ClampFacts.

Lemma clamp_clamped (x : R) :
  Lodash.clamp x prec (1 - prec) = clamped prec x.
Proof.
  pose proof prec_lt_half as Hp.
  unfold Lodash.clamp, clamped.
  destruct (Rle_dec x (1 - prec)); destruct (Rge_dec _ prec);
    destruct (Rlt_dec x prec); destruct (Rlt_dec (1 - prec) x); lra.
Qed.

Lemma clamp_prec_range (x : R) :
  prec <= Lodash.clamp x prec (1 - prec) <= 1 - prec.
Proof. apply clamp_range. pose proof prec_lt_half. lra. Qed.

(** ** Facts about logit *)

Lemma odds_pos (x : R) : 0 < x < 1 -> 0 < x / (1 - x).
Proof. intros [H0 H1]. apply Rdiv_lt_0_compat; lra. Qed.

Lemma odds_lt (x y : R) :
  0 < x -> x < y -> y < 1 -> x / (1 - x) < y / (1 - y).
Proof.
  intros H0 Hxy H1.
  assert (Hx : 0 < 1 - x) by lra.
  assert (Hy : 0 < 1 - y) by lra.
  apply Rmult_lt_reg_r with (r := 1 - x); [exact Hx|].
  apply Rmult_lt_reg_r with (r := 1 - y); [exact Hy|].
  replace (x / (1 - x) * (1 - x) * (1 - y)) with (x * (1 - y))
    by (field; lra).
  replace (y / (1 - y) * (1 - x) * (1 - y)) with (y * (1 - x))
    by (field; lra).
  nra.
Qed.

Lemma logit_lt (x y : R) :
  0 < x -> x < y -> y < 1 -> logit x < logit y.
Proof.
  intros H0 Hxy H1. unfold logit.
  apply ln_increasing.
  - apply odds_pos; lra.
  - apply odds_lt; assumption.
Qed.

Lemma logit_le (x y : R) :
  0 < x -> x <= y -> y < 1 -> logit x <= logit y.
Proof.
  intros H0 [Hxy | ->] H1.
  - left. apply logit_lt; assumption.
  - right. reflexivity.
Qed.

Lemma logit_compl (x : R) : 0 < x < 1 -> logit (1 - x) = - logit x.
Proof.
  intros [H0 H1]. unfold logit.
  replace ((1 - x) / (1 - (1 - x))) with (/ (x / (1 - x))) by (field; lra).
  apply ln_Rinv. apply odds_pos; lra.
Qed.

Lemma reward_logit (prior p : R) :
  reward prior p =
  logit (Lodash.clamp p prec (1 - prec)) -
  logit (Lodash.clamp prior prec (1 - prec)).
Proof. reflexivity. Qed.

Lemma logit_clamp_mono (x y : R) :
  x <= y ->
  logit (Lodash.clamp x prec (1 - prec)) <=
  logit (Lodash.clamp y prec (1 - prec)).
Proof.
  intros Hxy.
  pose proof prec_pos as Hp. pose proof prec_lt_half as Hh.
  pose proof (clamp_prec_range x) as Hx.
  pose proof (clamp_prec_range y) as Hy.
  apply logit_le; try lra.
  apply clamp_mono; lra.
Qed.

(** ** reward *)

Lemma reward_swap (prior p : R) : reward prior p = - reward p prior.
Proof. rewrite !reward_logit. ring. Qed.

Lemma reward_diag (x : R) : reward x x = 0.
Proof. rewrite reward_logit. ring. Qed.




(** C1.  For all real [prior] and [p], [reward prior p] is the logit of
    [p'] minus the logit of [prior'], where [p'] and [prior'] are [p]
    and [prior] clamped into [0.0001, 0.9999]: the nearest point of
    that interval, which indeed lies in it. *)
Theorem reward_is_clamped_logit_difference (prior p : R) :
  let prior' := clamped 0.0001 prior in
  let p' := clamped 0.0001 p in
  0.0001 <= prior' <= 0.9999 /\
  0.0001 <= p' <= 0.9999 /\
  reward prior p = ln (p' / (1 - p')) - ln (prior' / (1 - prior')).
Proof.
  cbv zeta.
  change (clamped 0.0001 prior) with (clamped prec prior).
  change (clamped 0.0001 p) with (clamped prec p).
  rewrite <- !clamp_clamped.
  pose proof (clamp_prec_range prior) as Hprior.
  pose proof (clamp_prec_range p) as Hp.
  assert (E : prec = 0.0001) by reflexivity.
  repeat split; try lra.
Qed.

(** C3 (as the code has it).  The reward is antisymmetric: for all real
    [prior] and [p], in particular for all of them in (0,1),
    [reward prior p] equals [- reward p prior]. *)
Theorem reward_antisymmetric (prior p : R) :
  reward prior p = - reward p prior.
Proof. apply reward_swap. Qed.

(** C3, refuted as stated: no [prior], [p] in (0,1) make
    [reward prior p] differ from [- reward p prior]. *)
Lemma reward_antisymmetry_has_no_exception :
  ~ exists prior p : R,
      0 < prior < 1 /\ 0 < p < 1 /\ reward prior p <> - reward p prior.
Proof.
  intros (prior & p & _ & _ & Hne).
  apply Hne. apply reward_swap.
Qed.




(** C5.  For every fixed [prior], the reward is monotonically
    increasing in [p]: [p1 <= p2] gives
    [reward prior p1 <= reward prior p2]. *)
Theorem reward_monotone (prior p1 p2 : R) :
  p1 <= p2 -> reward prior p1 <= reward prior p2.
Proof.
  intros H. rewrite !reward_logit.
  pose proof (logit_clamp_mono p1 p2 H). lra.
Qed.

Lemma reward_monotone_witness :
  0.2 <= 0.6 /\ reward 0.3 0.2 <= reward 0.3 0.6.
Proof.
  split; [lra | apply (reward_monotone 0.3 0.2 0.6); lra].
Defined.

(** C6.  For all [prior] in (0,1), [reward prior prior] is 0. *)
Theorem reward_self_consistent (prior : R) :
  0 < prior < 1 -> reward prior prior = 0.
Proof. intros _. apply reward_diag. Qed.

Lemma reward_self_consistent_witness :
  0 < 0.3 < 1 /\ reward 0.3 0.3 = 0.
Proof.
  split; [lra | apply (reward_self_consistent 0.3); lra].
Defined.

Lemma logit_clamp_bounds (x : R) :
  - logit (1 - prec) <= logit (Lodash.clamp x prec (1 - prec)) <= logit (1 - prec).
Proof.
  pose proof prec_pos as Hp. pose proof prec_lt_half as Hh.
  pose proof (clamp_prec_range x) as Hx.
  rewrite <- logit_compl by lra.
  replace (1 - (1 - prec)) with prec by ring.
  split; apply logit_le; lra.
Qed.

Lemma logit_top : logit (1 - prec) = ln ((1 - 0.0001) / 0.0001).
Proof. unfold logit, prec. f_equal. lra. Qed.

(** ** Numeric value of the bound

    [exp] is enclosed by repeated squaring: [1 + x <= exp x <= / (1 - x)]
    at a small [x], then [exp (2 * x) = exp x * exp x] with the
    decimals rounded outwards at each step. *)

Lemma exp_le_inv_1m (x : R) : 0 <= x -> x < 1 -> exp x <= / (1 - x).
Proof.
  intros H0 H1.
  pose proof (exp_ineq1_le (- x)) as Hl.
  rewrite exp_Ropp in Hl.
  pose proof (exp_pos x) as He.
  assert (Hd : 0 < 1 - x) by lra.
  apply Rmult_le_reg_r with (r := 1 - x); [exact Hd|].
  rewrite Rinv_l by lra.
  apply Rmult_le_reg_l with (r := / exp x).
  - apply Rinv_0_lt_compat. exact He.
  - rewrite <- Rmult_assoc, Rinv_l by lra. lra.
Qed.

Lemma Rinv_le_upper (d c : R) : 0 < d -> 1 <= c * d -> / d <= c.
Proof.
  intros Hd Hc.
  apply Rmult_le_reg_r with (r := d); [exact Hd|].
  rewrite Rinv_l by lra. exact Hc.
Qed.

Lemma exp_double_lower (x a b y : R) :
  y = 2 * x -> 0 <= a -> a <= exp x -> b <= a * a -> b <= exp y.
Proof.
  intros -> Ha Hx Hb.
  replace (2 * x) with (x + x) by ring. rewrite exp_plus.
  apply Rle_trans with (r2 := a * a); [exact Hb|].
  apply Rmult_le_compat; assumption.
Qed.

Lemma exp_double_upper (x a b y : R) :
  y = 2 * x -> exp x <= a -> a * a <= b -> exp y <= b.
Proof.
  intros -> Hx Hb.
  replace (2 * x) with (x + x) by ring. rewrite exp_plus.
  apply Rle_trans with (r2 := a * a); [|exact Hb].
  pose proof (exp_pos x) as He.
  apply Rmult_le_compat; lra.
Qed.

Lemma exp_9215_above : 9999 < exp 9.215.
Proof.
  assert (H0 : 1.000281219482421875 <= exp (9.215 / 32768)).
  { pose proof (exp_ineq1_le (9.215 / 32768)). lra. }
  assert (H1 : 1.000562518049241043 <= exp (9.215 / 16384))
    by (apply (exp_double_lower (9.215 / 32768) 1.000281219482421875 _ (9.215 / 16384)); [lra | lra | exact H0 | lra]).
  assert (H2 : 1.001125352525037807 <= exp (9.215 / 8192))
    by (apply (exp_double_lower (9.215 / 16384) 1.000562518049241043 _ (9.215 / 8192)); [lra | lra | exact H1 | lra]).
  assert (H3 : 1.002251971468381222 <= exp (9.215 / 4096))
    by (apply (exp_double_lower (9.215 / 8192) 1.001125352525037807 _ (9.215 / 4096)); [lra | lra | exact H2 | lra]).
  assert (H4 : 1.004509014312256847 <= exp (9.215 / 2048))
    by (apply (exp_double_lower (9.215 / 4096) 1.002251971468381222 _ (9.215 / 2048)); [lra | lra | exact H3 | lra]).
  assert (H5 : 1.009038359834581831 <= exp (9.215 / 1024))
    by (apply (exp_double_lower (9.215 / 2048) 1.004509014312256847 _ (9.215 / 1024)); [lra | lra | exact H4 | lra]).
  assert (H6 : 1.018158411617663044 <= exp (9.215 / 512))
    by (apply (exp_double_lower (9.215 / 1024) 1.009038359834581831 _ (9.215 / 512)); [lra | lra | exact H5 | lra]).
  assert (H7 : 1.036646551147802568 <= exp (9.215 / 256))
    by (apply (exp_double_lower (9.215 / 512) 1.018158411617663044 _ (9.215 / 256)); [lra | lra | exact H6 | lra]).
  assert (H8 : 1.074636072006633645 <= exp (9.215 / 128))
    by (apply (exp_double_lower (9.215 / 256) 1.036646551147802568 _ (9.215 / 128)); [lra | lra | exact H7 | lra]).
  assert (H9 : 1.154842687257846692 <= exp (9.215 / 64))
    by (apply (exp_double_lower (9.215 / 128) 1.074636072006633645 _ (9.215 / 64)); [lra | lra | exact H8 | lra]).
  assert (H10 : 1.333661632312924702 <= exp (9.215 / 32))
    by (apply (exp_double_lower (9.215 / 64) 1.154842687257846692 _ (9.215 / 32)); [lra | lra | exact H9 | lra]).
  assert (H11 : 1.778653349503574761 <= exp (9.215 / 16))
    by (apply (exp_double_lower (9.215 / 32) 1.333661632312924702 _ (9.215 / 16)); [lra | lra | exact H10 | lra]).
  assert (H12 : 3.163607737700285671 <= exp (9.215 / 8))
    by (apply (exp_double_lower (9.215 / 16) 1.778653349503574761 _ (9.215 / 8)); [lra | lra | exact H11 | lra]).
  assert (H13 : 10.008413918037119503 <= exp (9.215 / 4))
    by (apply (exp_double_lower (9.215 / 8) 3.163607737700285671 _ (9.215 / 4)); [lra | lra | exact H12 | lra]).
  assert (H14 : 100.168349154759125424 <= exp (9.215 / 2))
    by (apply (exp_double_lower (9.215 / 4) 10.008413918037119503 _ (9.215 / 2)); [lra | lra | exact H13 | lra]).
  assert (H15 : 10033.698172389733196762 <= exp 9.215)
    by (apply (exp_double_lower (9.215 / 2) 100.168349154759125424 _ 9.215); [lra | lra | exact H14 | lra]).
  lra.
Qed.

Lemma exp_921_below : exp 9.21 < 9999.
Proof.
  assert (H0 : exp (9.21 / 1048576) <= 1.000008783417601849).
  { apply Rle_trans with (r2 := / (1 - 9.21 / 1048576)).
    - apply exp_le_inv_1m; lra.
    - apply Rinv_le_upper; lra. }
  assert (H1 : exp (9.21 / 524288) <= 1.000017566912352123)
    by (apply (exp_double_upper (9.21 / 1048576) 1.000008783417601849 _ (9.21 / 524288)); [lra | exact H0 | lra]).
  assert (H2 : exp (9.21 / 262144) <= 1.000035134133300656)
    by (apply (exp_double_upper (9.21 / 524288) 1.000017566912352123 _ (9.21 / 262144)); [lra | exact H1 | lra]).
  assert (H3 : exp (9.21 / 131072) <= 1.000070269501008635)
    by (apply (exp_double_upper (9.21 / 262144) 1.000035134133300656 _ (9.21 / 131072)); [lra | exact H2 | lra]).
  assert (H4 : exp (9.21 / 65536) <= 1.000140543939820043)
    by (apply (exp_double_upper (9.21 / 131072) 1.000070269501008635 _ (9.21 / 65536)); [lra | exact H3 | lra]).
  assert (H5 : exp (9.21 / 32768) <= 1.000281107632239107)
    by (apply (exp_double_upper (9.21 / 65536) 1.000140543939820043 _ (9.21 / 32768)); [lra | exact H4 | lra]).
  assert (H6 : exp (9.21 / 16384) <= 1.000562294285979118)
    by (apply (exp_double_upper (9.21 / 32768) 1.000281107632239107 _ (9.21 / 16384)); [lra | exact H5 | lra]).
  assert (H7 : exp (9.21 / 8192) <= 1.001124904746822281)
    by (apply (exp_double_upper (9.21 / 16384) 1.000562294285979118 _ (9.21 / 8192)); [lra | exact H6 | lra]).
  assert (H8 : exp (9.21 / 4096) <= 1.002251074904333986)
    by (apply (exp_double_upper (9.21 / 8192) 1.001124904746822281 _ (9.21 / 4096)); [lra | exact H7 | lra]).
  assert (H9 : exp (9.21 / 2048) <= 1.004507217146892895)
    by (apply (exp_double_upper (9.21 / 4096) 1.002251074904333986 _ (9.21 / 2048)); [lra | exact H8 | lra]).
  assert (H10 : exp (9.21 / 1024) <= 1.009034749300195036)
    by (apply (exp_double_upper (9.21 / 2048) 1.004507217146892895 _ (9.21 / 1024)); [lra | exact H9 | lra]).
  assert (H11 : exp (9.21 / 512) <= 1.018151125295307447)
    by (apply (exp_double_upper (9.21 / 1024) 1.009034749300195036 _ (9.21 / 512)); [lra | exact H10 | lra]).
  assert (H12 : exp (9.21 / 256) <= 1.036631713940100844)
    by (apply (exp_double_upper (9.21 / 512) 1.018151125295307447 _ (9.21 / 256)); [lra | exact H11 | lra]).
  assert (H13 : exp (9.21 / 128) <= 1.074605310346391067)
    by (apply (exp_double_upper (9.21 / 256) 1.036631713940100844 _ (9.21 / 128)); [lra | exact H12 | lra]).
  assert (H14 : exp (9.21 / 64) <= 1.15477657302466346)
    by (apply (exp_double_upper (9.21 / 128) 1.074605310346391067 _ (9.21 / 64)); [lra | exact H13 | lra]).
  assert (H15 : exp (9.21 / 32) <= 1.333508933606585901)
    by (apply (exp_double_upper (9.21 / 64) 1.15477657302466346 _ (9.21 / 32)); [lra | exact H14 | lra]).
  assert (H16 : exp (9.21 / 16) <= 1.778246076008573925)
    by (apply (exp_double_upper (9.21 / 32) 1.333508933606585901 _ (9.21 / 16)); [lra | exact H15 | lra]).
  assert (H17 : exp (9.21 / 8) <= 3.162159106839890873)
    by (apply (exp_double_upper (9.21 / 16) 1.778246076008573925 _ (9.21 / 8)); [lra | exact H16 | lra]).
  assert (H18 : exp (9.21 / 4) <= 9.999250216970456381)
    by (apply (exp_double_upper (9.21 / 8) 3.162159106839890873 _ (9.21 / 4)); [lra | exact H17 | lra]).
  assert (H19 : exp (9.21 / 2) <= 99.985004901583719012)
    by (apply (exp_double_upper (9.21 / 4) 9.999250216970456381 _ (9.21 / 2)); [lra | exact H18 | lra]).
  assert (H20 : exp 9.21 <= 9997.001205169720316353)
    by (apply (exp_double_upper (9.21 / 2) 99.985004901583719012 _ 9.21); [lra | exact H19 | lra]).
  lra.
Qed.

Lemma ln_9999_bounds : 9.21 < ln 9999 < 9.215.
Proof.
  split.
  - rewrite <- (ln_exp 9.21).
    apply ln_increasing; [apply exp_pos | apply exp_921_below].
  - rewrite <- (ln_exp 9.215).
    apply ln_increasing; [lra | apply exp_9215_above].
Qed.

(** C10 (as the code has it).  For all real [prior] and [p], the
    absolute value of [reward prior p] is at most 18.43: the logit
    bound [2 * ln ((1 - 0.0001) / 0.0001)] lies between 18.42 and
    18.43.  The reward is a total function into the reals, so it is
    never infinite. *)
Theorem reward_bounded (prior p : R) :
  Rabs (reward prior p) <= 18.43 /\
  18.42 < 2 * ln ((1 - 0.0001) / 0.0001) < 18.43.
Proof.
  assert (Hn : 18.42 < 2 * ln ((1 - 0.0001) / 0.0001) < 18.43).
  { replace ((1 - 0.0001) / 0.0001) with 9999 by lra.
    pose proof ln_9999_bounds. lra. }
  split; [|exact Hn].
  rewrite <- logit_top in Hn.
  rewrite reward_logit.
  pose proof (logit_clamp_bounds prior) as Hprior.
  pose proof (logit_clamp_bounds p) as Hp.
  apply Rabs_le. lra.
Qed.

(** In exact arithmetic the logit bound is reached: a reference
    probability of 0 against a candidate probability of 1. *)
Lemma reward_extreme : reward 0 1 = 2 * ln ((1 - 0.0001) / 0.0001).
Proof.
  rewrite reward_logit, <- logit_top.
  pose proof prec_pos as Hp. pose proof prec_lt_half as Hh.
  rewrite clamp_above, clamp_below by lra.
  pose proof (logit_compl prec) as Hc.
  lra.
Qed.

(** ** slack *)

Lemma exp_nonpos_le_1 (t : R) : t <= 0 -> exp t <= 1.
Proof.
  intros [Ht | ->].
  - left. rewrite <- exp_0. apply exp_increasing. exact Ht.
  - right. apply exp_0.
Qed.

(** C8.  For all [x > 0], [slack x] is [0.95 * exp (- (ln x)² / 6)],
    and so [slack x <= 0.95]. *)
Theorem slack_formula_and_bound (x : R) :
  0 < x ->
  slack x = 0.95 * exp (- (ln x) ^ 2 / 6) /\ slack x <= 0.95.
Proof.
  intros _.
  assert (E : slack x = 0.95 * exp (- (ln x) ^ 2 / 6)).
  { unfold slack. cbv zeta. do 2 f_equal. field. }
  split; [exact E|].
  rewrite E.
  assert (Hsq : 0 <= (ln x) ^ 2) by (apply pow2_ge_0).
  assert (Ht : - (ln x) ^ 2 / 6 <= 0) by lra.
  pose proof (exp_nonpos_le_1 _ Ht) as He.
  lra.
Qed.

Lemma slack_formula_and_bound_witness :
  0 < 2 /\ slack 2 = 0.95 * exp (- (ln 2) ^ 2 / 6) /\ slack 2 <= 0.95.
Proof.
  split; [lra | apply (slack_formula_and_bound 2); lra].
Defined.

(** ** expectedReward *)

Section ExpectedReward.

Context {Ev D : Type} `{CategoricalLike Ev D}.

(** The reducer of [expectedReward] adds one n-th of a term at a
    time; the fold is the start value plus the n-th of the sum. *)
Lemma reduce_shares (f : Ev -> R) (n : R) (l : list Ev) (a : R) :
  fold_left (fun acc ev => acc + f ev / n) l a = a + Rsum (map f l) / n.
Proof.
  revert a. induction l as [| e l IH]; intros a; simpl.
  - unfold Rdiv. ring.
  - rewrite IH. unfold Rdiv. ring.
Qed.

Lemma Rsum_nonneg (l : list R) : Forall (fun r => 0 <= r) l -> 0 <= Rsum l.
Proof.
  induction 1 as [| r l Hr _ IH]; simpl; lra.
Qed.

Lemma Rsum_zero (l : list R) : Forall (fun r => r = 0) l -> Rsum l = 0.
Proof.
  induction 1 as [| r l Hr _ IH]; simpl; lra.
Qed.

Lemma expectedReward_mean (pop sam : D) :
  expectedReward pop sam =
  mean (map (fun ev => Rabs (reward (prob pop ev) (prob sam ev)))
            (events pop)).
Proof.
  unfold expectedReward, mean. cbv zeta.
  rewrite (reduce_shares
             (fun ev => Rabs (reward (prob pop ev) (prob sam ev)))).
  rewrite length_map. ring.
Qed.

Lemma expectedReward_same (d : D) : expectedReward d d = 0.
Proof.
  rewrite expectedReward_mean. unfold mean.
  rewrite Rsum_zero; [unfold Rdiv; ring|].
  apply Forall_forall. intros r Hr.
  apply in_map_iff in Hr. destruct Hr as (ev & <- & _).
  rewrite reward_diag. apply Rabs_R0.
Qed.

(** C2.  For every pair of distributions, [expectedReward
    referenceDist candidateDist] runs over the events of
    [referenceDist] and is the unweighted arithmetic mean, over those
    events [e], of the absolute value of
    [reward (prob referenceDist e) (prob candidateDist e)]. *)
Theorem expectedReward_is_unweighted_mean (referenceDist candidateDist : D) :
  expectedReward referenceDist candidateDist =
  mean (map (fun e => Rabs (reward (prob referenceDist e)
                                   (prob candidateDist e)))
            (events referenceDist)).
Proof. apply expectedReward_mean. Qed.

(** C9.  For every pair of distributions, [expectedReward] is
    non-negative. *)
Theorem expectedReward_nonneg (referenceDist candidateDist : D) :
  0 <= expectedReward referenceDist candidateDist.
Proof.
  rewrite expectedReward_mean. unfold mean.
  set (l := map _ _).
  assert (Hs : 0 <= Rsum l).
  { apply Rsum_nonneg. apply Forall_forall. intros r Hr.
    apply in_map_iff in Hr. destruct Hr as (ev & <- & _).
    apply Rabs_pos. }
  destruct l as [| r l'].
  - simpl. unfold Rdiv. lra.
  - apply Rmult_le_pos; [exact Hs|].
    left. apply Rinv_0_lt_compat. apply lt_0_INR. simpl. apply Nat.lt_0_succ.
Qed.

End ExpectedReward.

(** C7.  For any non-degenerate categorical distribution [D]
    (non-empty event set, positive total weight),
    [expectedReward D D] is 0. *)
Theorem expectedReward_self_zero (D : Categorical.t) :
  Categorical.events D <> [] ->
  0 < Categorical.weightSum D ->
  expectedReward D D = 0.
Proof. intros _ _. apply expectedReward_same. Qed.

Lemma expectedReward_self_zero_witness :
  Categorical.events (Categorical.train ["a"; "b"]%string) <> [] /\
  0 < Categorical.weightSum (Categorical.train ["a"; "b"]%string) /\
  expectedReward (Categorical.train ["a"; "b"]%string)
                 (Categorical.train ["a"; "b"]%string) = 0.
Proof.
  assert (He : Categorical.events (Categorical.train ["a"; "b"]%string) <> [])
    by (simpl; discriminate).
  assert (Hw : 0 < Categorical.weightSum (Categorical.train ["a"; "b"]%string))
    by (unfold Categorical.weightSum; simpl; lra).
  split; [exact He|]. split; [exact Hw|].
  apply (expectedReward_self_zero _ He Hw).
Defined.

(** ** A worked run

    The population [a, b] against a sample [a, a]: the candidate never
    saw [b], yet [b] is counted, because the events are the
    population's.  Both events miss by the full logit of 0.9999. *)

Lemma logit_half : logit 0.5 = 0.
Proof.
  unfold logit. replace (0.5 / (1 - 0.5)) with 1 by lra. apply ln_1.
Qed.

Lemma reward_half_one : reward 0.5 1 = ln 9999.
Proof.
  rewrite reward_logit.
  pose proof prec_pos as Hp. pose proof prec_lt_half as Hh.
  rewrite clamp_above by lra.
  rewrite clamp_id by (unfold prec; lra).
  rewrite logit_half, logit_top.
  replace ((1 - 0.0001) / 0.0001) with 9999 by lra. ring.
Qed.

Lemma reward_half_zero : reward 0.5 0 = - ln 9999.
Proof.
  rewrite reward_logit.
  pose proof prec_pos as Hp. pose proof prec_lt_half as Hh.
  rewrite clamp_below by lra.
  rewrite clamp_id by (unfold prec; lra).
  pose proof (logit_compl prec) as Hc.
  rewrite logit_half.
  replace (ln 9999) with (logit (1 - prec)).
  - lra.
  - rewrite logit_top. f_equal. lra.
Qed.

Example expectedReward_undersampled :
  expectedReward (Categorical.train ["a"; "b"]%string)
                 (Categorical.train ["a"; "a"]%string) = ln 9999.
Proof.
  unfold expectedReward. simpl.
  unfold Categorical.prob. simpl.
  replace (1 / (1 + 1)) with 0.5 by lra.
  replace ((1 + 1) / (1 + 1)) with 1 by lra.
  replace (0 / (1 + 1)) with 0 by lra.
  rewrite reward_half_one, reward_half_zero.
  pose proof ln_9999_bounds as Hb.
  rewrite Rabs_Ropp, Rabs_pos_eq by lra.
  lra.
Qed.

(** ** More on reward *)

Lemma clamp_prec_below (x : R) :
  x <= prec -> Lodash.clamp x prec (1 - prec) = prec.
Proof. intros Hx. pose proof prec_lt_half. apply clamp_below; lra. Qed.

Lemma clamp_prec_above (x : R) :
  1 - prec <= x -> Lodash.clamp x prec (1 - prec) = 1 - prec.
Proof. intros Hx. pose proof prec_lt_half. apply clamp_above; lra. Qed.

Lemma clamp_prec_id (x : R) :
  prec <= x <= 1 - prec -> Lodash.clamp x prec (1 - prec) = x.
Proof. intros Hx. pose proof prec_lt_half. apply clamp_id; lra. Qed.

Lemma ln_quot (x y : R) : 0 < x -> 0 < y -> ln (x / y) = ln x - ln y.
Proof.
  intros Hx Hy. unfold Rdiv.
  rewrite ln_mult by (try apply Rinv_0_lt_compat; assumption).
  rewrite ln_Rinv by assumption. ring.
Qed.

Lemma ln_le_mono (x y : R) : 0 < x -> x <= y -> ln x <= ln y.
Proof.
  intros Hx [Hlt | ->].
  - left. apply ln_increasing; assumption.
  - right. reflexivity.
Qed.

Lemma reward_abs_le (prior p : R) :
  Rabs (reward prior p) <= 2 * logit (1 - prec).
Proof.
  rewrite reward_logit.
  pose proof (logit_clamp_bounds prior) as Hprior.
  pose proof (logit_clamp_bounds p) as Hp.
  apply Rabs_le. lra.
Qed.

(** X3.  The reward saturates outside [0.0001, 0.9999]: a candidate
    probability at or below 0.0001 (zero and negative numbers
    included) scores like 0.0001 and one at or above 0.9999 like
    0.9999, and the same holds for the reference probability. *)
Theorem reward_saturates (prior p : R) :
  (p <= 0.0001 -> reward prior p = reward prior 0.0001) /\
  (0.9999 <= p -> reward prior p = reward prior 0.9999) /\
  (prior <= 0.0001 -> reward prior p = reward 0.0001 p) /\
  (0.9999 <= prior -> reward prior p = reward 0.9999 p).
Proof.
  pose proof prec_lt_half as Hh.
  assert (E : prec = 0.0001) by reflexivity.
  repeat split; intros Hx; rewrite !reward_logit.
  - rewrite (clamp_prec_below p), (clamp_prec_below 0.0001) by lra. reflexivity.
  - rewrite (clamp_prec_above p), (clamp_prec_above 0.9999) by lra. reflexivity.
  - rewrite (clamp_prec_below prior), (clamp_prec_below 0.0001) by lra. reflexivity.
  - rewrite (clamp_prec_above prior), (clamp_prec_above 0.9999) by lra. reflexivity.
Qed.

Lemma reward_saturates_witness :
  reward 0.3 0 = reward 0.3 0.0001 /\ reward 0.3 1 = reward 0.3 0.9999 /\
  reward (-2) 0.3 = reward 0.0001 0.3 /\ reward 5 0.3 = reward 0.9999 0.3.
Proof.
  split; [apply (proj1 (reward_saturates 0.3 0)); lra|].
  split; [apply (proj1 (proj2 (reward_saturates 0.3 1))); lra|].
  split; [apply (proj1 (proj2 (proj2 (reward_saturates (-2) 0.3)))); lra|].
  apply (proj2 (proj2 (proj2 (reward_saturates 5 0.3)))); lra.
Defined.

(** X5.  For a fixed candidate [p] the reward is decreasing in the
    reference: a larger [prior] never gives a larger reward. *)
Theorem reward_antitone_prior (prior1 prior2 p : R) :
  prior1 <= prior2 -> reward prior2 p <= reward prior1 p.
Proof.
  intros H. rewrite !reward_logit.
  pose proof (logit_clamp_mono prior1 prior2 H). lra.
Qed.

Lemma reward_antitone_prior_witness :
  0.2 <= 0.6 /\ reward 0.6 0.3 <= reward 0.2 0.3.
Proof.
  split; [lra | apply (reward_antitone_prior 0.2 0.6 0.3); lra].
Defined.

(** ** More on slack *)

Lemma slack_eq (x : R) : slack x = 0.95 * exp (- ((ln x) ^ 2 / 6)).
Proof. unfold slack. cbv zeta. do 2 f_equal. field. Qed.

Lemma exp_le_mono (s t : R) : s <= t -> exp s <= exp t.
Proof.
  intros [Hlt | ->].
  - left. apply exp_increasing. exact Hlt.
  - right. reflexivity.
Qed.

Lemma ln_nonneg (x : R) : 1 <= x -> 0 <= ln x.
Proof.
  intros Hx. rewrite <- ln_1. apply ln_le_mono; lra.
Qed.

(** X7.  For any number of observations [x > 0] the slack is
    non-negative: adding it never lowers a reward. *)
Theorem slack_nonneg (x : R) : 0 < x -> 0 <= slack x.
Proof.
  intros _. rewrite slack_eq.
  pose proof (exp_pos (- ((ln x) ^ 2 / 6))). lra.
Qed.

Lemma slack_nonneg_witness : 0 <= slack 2.
Proof. apply (slack_nonneg 2); lra. Defined.

(** X10.  From one observation on, more observations never give more
    slack: for [1 <= x <= y], [slack y <= slack x]. *)
Theorem slack_antitone (x y : R) :
  1 <= x -> x <= y -> slack y <= slack x.
Proof.
  intros Hx Hxy. rewrite !slack_eq.
  pose proof (ln_nonneg x Hx) as H0.
  assert (Hl : ln x <= ln y) by (apply ln_le_mono; lra).
  assert (Hsq : (ln x) ^ 2 <= (ln y) ^ 2) by nra.
  assert (He : exp (- ((ln y) ^ 2 / 6)) <= exp (- ((ln x) ^ 2 / 6)))
    by (apply exp_le_mono; lra).
  lra.
Qed.

Lemma slack_antitone_witness : slack 4 <= slack 2.
Proof. apply (slack_antitone 2 4); lra. Defined.

(** X11.  The slack vanishes for large samples: for every [eps > 0]
    there is a size beyond which [slack x] stays below [eps]. *)
Theorem slack_vanishes (eps : R) :
  0 < eps -> exists M : R, forall x : R, M < x -> slack x < eps.
Proof.
  intros Heps.
  set (c := 0.95 / eps).
  assert (Hc : 0 < c) by (apply Rdiv_lt_0_compat; lra).
  set (m := Rmax 1 (6 * ln c)).
  exists (exp m). intros x Hx.
  pose proof (exp_pos m) as Hm.
  assert (Hx0 : 0 < x) by lra.
  assert (Ht : m < ln x).
  { rewrite <- (ln_exp m). apply ln_increasing; assumption. }
  pose proof (Rmax_l 1 (6 * ln c)) as H1.
  pose proof (Rmax_r 1 (6 * ln c)) as H2.
  fold m in H1, H2.
  assert (Hsq : ln x <= (ln x) ^ 2) by nra.
  assert (Harg : - ((ln x) ^ 2 / 6) < ln (/ c)).
  { rewrite ln_Rinv by exact Hc. lra. }
  apply exp_increasing in Harg.
  rewrite exp_ln in Harg by (apply Rinv_0_lt_compat; exact Hc).
  rewrite slack_eq.
  assert (Ec : / c = eps / 0.95) by (unfold c; field; lra).
  rewrite Ec in Harg. lra.
Qed.

Lemma slack_vanishes_witness :
  exists M : R, forall x : R, M < x -> slack x < 0.01.
Proof. apply (slack_vanishes 0.01); lra. Defined.

(** ** More on expectedReward *)

Lemma Rsum_le_count (B : R) (l : list R) :
  Forall (fun r => r <= B) l -> Rsum l <= INR (List.length l) * B.
Proof.
  induction 1 as [| r l Hr _ IH].
  - simpl. lra.
  - change (Rsum (r :: l)) with (r + Rsum l).
    change (List.length (r :: l)) with (S (List.length l)).
    rewrite S_INR. lra.
Qed.

Lemma Rsum_ge_count (B : R) (l : list R) :
  Forall (fun r => B <= r) l -> INR (List.length l) * B <= Rsum l.
Proof.
  induction 1 as [| r l Hr _ IH].
  - simpl. lra.
  - change (Rsum (r :: l)) with (r + Rsum l).
    change (List.length (r :: l)) with (S (List.length l)).
    rewrite S_INR. lra.
Qed.

Lemma mean_between (a b : R) (l : list R) :
  l <> [] -> Forall (fun r => a <= r <= b) l -> a <= mean l <= b.
Proof.
  intros Hne Hl. unfold mean.
  assert (Hn : 0 < INR (List.length l)).
  { destruct l; [contradiction|]. apply lt_0_INR. simpl. apply Nat.lt_0_succ. }
  assert (Hlo : INR (List.length l) * a <= Rsum l).
  { apply Rsum_ge_count. eapply Forall_impl; [|exact Hl]. simpl. intros; lra. }
  assert (Hhi : Rsum l <= INR (List.length l) * b).
  { apply Rsum_le_count. eapply Forall_impl; [|exact Hl]. simpl. intros; lra. }
  split.
  - apply Rmult_le_reg_r with (r := INR (List.length l)); [exact Hn|].
    unfold Rdiv. rewrite Rmult_assoc, Rinv_l by lra. lra.
  - apply Rmult_le_reg_r with (r := INR (List.length l)); [exact Hn|].
    unfold Rdiv. rewrite Rmult_assoc, Rinv_l by lra. lra.
Qed.

Lemma logit_top_nonneg : 0 <= 2 * logit (1 - prec).
Proof.
  pose proof (reward_abs_le 0 0) as H.
  pose proof (Rabs_pos (reward 0 0)). lra.
Qed.

Lemma reward_same_clamp (prior p : R) :
  Lodash.clamp p prec (1 - prec) = Lodash.clamp prior prec (1 - prec) ->
  reward prior p = 0.
Proof. intros E. rewrite reward_logit, E. ring. Qed.

Section ExpectedRewardMore.

Context {Ev D : Type} `{CategoricalLike Ev D}.

Lemma expectedReward_between (pop sam : D) :
  0 <= expectedReward pop sam <= 2 * logit (1 - prec).
Proof.
  rewrite expectedReward_mean.
  destruct (events pop) as [| e l] eqn:El.
  - unfold mean. simpl. unfold Rdiv. rewrite Rmult_0_l.
    pose proof logit_top_nonneg. lra.
  - rewrite <- El. apply mean_between.
    + rewrite El. simpl. discriminate.
    + apply Forall_forall. intros r Hr.
      apply in_map_iff in Hr. destruct Hr as (ev & <- & _).
      split; [apply Rabs_pos | apply reward_abs_le].
Qed.

(** X12.  For every pair of distributions the expected reward is at
    most 18.43, like a single reward: averaging cannot exceed the
    worst term. *)
Theorem expectedReward_upper_bound (pop sam : D) :
  expectedReward pop sam <= 18.43.
Proof.
  pose proof (expectedReward_between pop sam) as Hb.
  assert (Ht : logit (1 - prec) = ln 9999).
  { rewrite logit_top. f_equal. lra. }
  pose proof ln_9999_bounds. lra.
Qed.

(** X13.  The sampled distribution is consulted only through its
    probabilities of the population's events: two candidates that
    agree on those get the same expected reward, whatever events of
    their own they list. *)
Theorem expectedReward_candidate_ext (pop sam1 sam2 : D) :
  (forall ev, In ev (events pop) -> prob sam1 ev = prob sam2 ev) ->
  expectedReward pop sam1 = expectedReward pop sam2.
Proof.
  intros Hagree. rewrite !expectedReward_mean.
  f_equal. apply map_ext_in. intros ev Hev.
  rewrite (Hagree ev Hev). reflexivity.
Qed.

(** X14.  The expected reward is 0 when, on every event of the
    population, the candidate's probability and the population's are
    clamped to the same value; the two distributions need not be the
    same object, nor have the same probabilities outside
    [0.0001, 0.9999]. *)
Theorem expectedReward_zero_when_clamped_equal (pop sam : D) :
  (forall ev, In ev (events pop) ->
     Lodash.clamp (prob sam ev) 0.0001 (1 - 0.0001) =
     Lodash.clamp (prob pop ev) 0.0001 (1 - 0.0001)) ->
  expectedReward pop sam = 0.
Proof.
  change 0.0001 with prec.
  intros Hall. rewrite expectedReward_mean. unfold mean.
  rewrite Rsum_zero; [unfold Rdiv; ring|].
  apply Forall_forall. intros r Hr.
  apply in_map_iff in Hr. destruct Hr as (ev & <- & Hev).
  rewrite (reward_same_clamp _ _ (Hall ev Hev)). apply Rabs_R0.
Qed.

End ExpectedRewardMore.

Lemma expectedReward_zero_when_clamped_equal_witness :
  expectedReward (Categorical.train ["a"; "b"]%string)
                 (Categorical.train ["b"; "a"; "a"; "b"]%string) = 0.
Proof.
  apply (expectedReward_zero_when_clamped_equal
           (Categorical.train ["a"; "b"]%string)
           (Categorical.train ["b"; "a"; "a"; "b"]%string)).
  intros ev [<- | [<- | []]]; f_equal;
    unfold prob, Categorical_like, Categorical.prob; simpl; lra.
Defined.

Lemma expectedReward_candidate_ext_witness :
  expectedReward (Categorical.train ["a"; "b"]%string)
                 (Categorical.train ["a"; "b"]%string) =
  expectedReward (Categorical.train ["a"; "b"]%string)
                 (Categorical.train ["b"; "a"]%string).
Proof.
  apply (expectedReward_candidate_ext
           (Categorical.train ["a"; "b"]%string)
           (Categorical.train ["a"; "b"]%string)
           (Categorical.train ["b"; "a"]%string)).
  intros ev [<- | [<- | []]]; reflexivity.
Defined.

(** ** The driver *)

Lemma baseSum_Rsum (x : R) (xs : list R) :
  Lodash.baseSum x xs = x + Rsum xs.
Proof.
  unfold Lodash.baseSum. revert x.
  induction xs as [| y ys IH]; intros x; simpl.
  - ring.
  - rewrite IH. ring.
Qed.

Lemma lodash_mean_some (l : list R) :
  l <> [] -> Lodash.mean l = Some (mean l).
Proof.
  destruct l as [| x xs]; [contradiction|]. intros _.
  unfold Lodash.mean, mean. rewrite baseSum_Rsum. reflexivity.
Qed.

Lemma map_seq_offset {T : Type} (g : nat -> T) (n k : nat) :
  map (fun j => g (k + j)%nat) (seq 0 n) = map g (seq k n).
Proof.
  revert k. induction n as [| n IH]; intros k.
  - reflexivity.
  - simpl. rewrite Nat.add_0_r. f_equal.
    rewrite <- seq_shift, map_map, <- IH.
    apply map_ext. intros j. f_equal. apply Nat.add_succ_r.
Qed.

(** An iteratee that ignores its index, computes [g] of the position
    of the random source and advances it by [c]: the [j]-th result is
    [g] at position [k + j * c]. *)
Lemma baseTimes_blocks {T : Type} (g : nat -> T) (c : nat)
    (f : nat -> nat -> T * nat) :
  (forall i k, f i k = (g k, (k + c)%nat)) ->
  forall n i k,
    Lodash.baseTimes n i f k =
    (map (fun j => g (k + j * c)%nat) (seq 0 n), (k + n * c)%nat).
Proof.
  intros Hf. induction n as [| n IH]; intros i k.
  - simpl. rewrite Nat.add_0_r. reflexivity.
  - cbn [Lodash.baseTimes]. rewrite Hf, IH.
    f_equal.
    + cbn [seq map]. rewrite Nat.mul_0_l, Nat.add_0_r. f_equal.
      rewrite <- seq_shift, map_map.
      apply map_ext. intros j. f_equal. simpl. apply eq_sym, Nat.add_assoc.
    + simpl. apply eq_sym, Nat.add_assoc.
Qed.

Lemma times_blocks {T : Type} (g : nat -> T) (c : nat)
    (f : nat -> nat -> T * nat) :
  (forall i k, f i k = (g k, (k + c)%nat)) ->
  forall n k,
    Lodash.times n f k =
    (map (fun j => g (k + j * c)%nat) (seq 0 n), (k + n * c)%nat).
Proof. intros Hf n k. apply baseTimes_blocks. exact Hf. Qed.

Lemma wsum_fold_learn (l : list string) (d : Categorical.t) :
  Categorical.wsum (fold_left Categorical.learn l d) =
  (Categorical.wsum d + List.length l)%nat.
Proof.
  revert d. induction l as [| ev l IH]; intros d; simpl.
  - apply eq_sym, Nat.add_0_r.
  - rewrite IH. simpl. apply eq_sym, Nat.add_succ_r.
Qed.

Lemma weightSum_train (l : list string) :
  Categorical.weightSum (Categorical.train l) = INR (List.length l).
Proof.
  unfold Categorical.weightSum, Categorical.train.
  rewrite wsum_fold_learn. reflexivity.
Qed.

Section DriverFacts.

Variable draws : nat -> string.
Variable popcat : Categorical.t.
Variable sampleSize : nat.

Lemma takeSample_run (k : nat) :
  Driver.takeSample draws sampleSize k =
  (Driver.sampleAt draws sampleSize k, (k + sampleSize)%nat).
Proof.
  unfold Driver.takeSample, Driver.sampleAt.
  rewrite (times_blocks draws 1).
  - rewrite Nat.mul_1_r. f_equal.
    rewrite <- (map_seq_offset draws sampleSize k). apply map_ext.
    intros j. rewrite Nat.mul_1_r. reflexivity.
  - intros _ j. unfold Driver.sample_call. rewrite Nat.add_1_r. reflexivity.
Qed.

Lemma exRew_run (k : nat) :
  Driver.exRew draws popcat sampleSize k =
  (Driver.rewardAt draws popcat sampleSize k, (k + sampleSize)%nat).
Proof.
  unfold Driver.exRew, Driver.bind. rewrite takeSample_run. reflexivity.
Qed.

Lemma slackRew_run (k : nat) :
  Driver.slackRew draws popcat sampleSize k =
  (Driver.rewardAt draws popcat sampleSize k + slack (INR sampleSize),
   (k + sampleSize)%nat).
Proof.
  unfold Driver.slackRew, Driver.bind. rewrite takeSample_run.
  cbv zeta. unfold Driver.ret. rewrite weightSum_train.
  unfold Driver.sampleAt. rewrite length_map, length_seq. reflexivity.
Qed.

Lemma triple_run (k : nat) :
  Driver.triple draws popcat sampleSize k =
  ((sampleSize,
    Lodash.mean
      (map (fun j => Driver.rewardAt draws popcat sampleSize
                       (k + j * sampleSize)%nat)
           (seq 0 Driver.SAMPLES_PER_SIZE)),
    Lodash.mean
      (map (fun j => Driver.rewardAt draws popcat sampleSize
                       (k + Driver.SAMPLES_PER_SIZE * sampleSize
                          + j * sampleSize)%nat
                     + slack (INR sampleSize))
           (seq 0 Driver.SAMPLES_PER_SIZE)),
    map (fun j => Driver.rewardAt draws popcat sampleSize
                    (k + j * sampleSize)%nat)
        (seq 0 Driver.SAMPLES_PER_SIZE)),
   (k + Driver.SAMPLES_PER_SIZE * sampleSize
      + Driver.SAMPLES_PER_SIZE * sampleSize)%nat).
Proof.
  unfold Driver.triple, Driver.bind.
  rewrite (times_blocks (Driver.rewardAt draws popcat sampleSize) sampleSize)
    by (intros _ j; apply exRew_run).
  rewrite (times_blocks
             (fun j => Driver.rewardAt draws popcat sampleSize j
                       + slack (INR sampleSize)) sampleSize)
    by (intros _ j; apply slackRew_run).
  reflexivity.
Qed.

Lemma rewardAt_between (k : nat) :
  0 <= Driver.rewardAt draws popcat sampleSize k <= 2 * logit (1 - prec).
Proof. apply expectedReward_between. Qed.

End DriverFacts.

Lemma trials_nonempty {T : Type} (f : nat -> T) :
  map f (seq 0 Driver.SAMPLES_PER_SIZE) <> [].
Proof.
  intros E. apply (f_equal (@List.length T)) in E.
  rewrite length_map, length_seq in E. discriminate E.
Qed.

Lemma mapM_steps {T U : Type} (c : T -> nat) (f : T -> Driver.Rand U) :
  (forall t k, snd (f t k) = (k + c t)%nat) ->
  forall l k, snd (Driver.mapM f l k) = (k + list_sum (map c l))%nat.
Proof.
  intros Hf. induction l as [| t l IH]; intros k.
  - simpl. apply eq_sym, Nat.add_0_r.
  - cbn [Driver.mapM]. unfold Driver.bind at 1.
    pose proof (Hf t k) as Ht. destruct (f t k) as [u k1]. simpl in Ht.
    unfold Driver.bind at 1.
    pose proof (IH k1) as Hl. destruct (Driver.mapM f l k1) as [us k2].
    simpl in Hl. simpl. rewrite Hl, Ht. apply eq_sym, Nat.add_assoc.
Qed.

(** X15.  The raw rewards of a sample size are computed from
    consecutive blocks of draws: trial [j] trains its candidate on the
    [sampleSize] draws that follow the first [j * sampleSize] ones, and
    there are [SAMPLES_PER_SIZE] trials. *)
Theorem triple_plain_trials (draws : nat -> string) (popcat : Categorical.t)
    (sampleSize k : nat) :
  Driver.tri_exRews (fst (Driver.triple draws popcat sampleSize k)) =
  map (fun j =>
         expectedReward popcat
           (Categorical.train
              (Driver.sampleAt draws sampleSize (k + j * sampleSize))))
      (seq 0 Driver.SAMPLES_PER_SIZE).
Proof. rewrite triple_run. reflexivity. Qed.

(** X16.  The slack-corrected average is taken over fresh samples: its
    trial [j] uses the draws after those of all the plain trials, and
    the slack added to every trial is that of the configured sample
    size, whatever was drawn. *)
Theorem triple_slack_trials (draws : nat -> string) (popcat : Categorical.t)
    (sampleSize k : nat) :
  (0 < sampleSize)%nat ->
  Driver.tri_exSlackRew (fst (Driver.triple draws popcat sampleSize k)) =
  Lodash.mean
    (map (fun j =>
            expectedReward popcat
              (Categorical.train
                 (Driver.sampleAt draws sampleSize
                    (k + Driver.SAMPLES_PER_SIZE * sampleSize
                       + j * sampleSize)))
            + slack (INR sampleSize))
         (seq 0 Driver.SAMPLES_PER_SIZE)).
Proof. intros _. rewrite triple_run. reflexivity. Qed.

Lemma triple_slack_trials_witness :
  Driver.tri_exSlackRew
    (fst (Driver.triple (fun _ => "a"%string)
            (Categorical.train ["a"; "b"]%string) 2 0%nat)) =
  Lodash.mean
    (map (fun j =>
            expectedReward (Categorical.train ["a"; "b"]%string)
              (Categorical.train
                 (Driver.sampleAt (fun _ => "a"%string) 2
                    (0 + Driver.SAMPLES_PER_SIZE * 2 + j * 2)))
            + slack (INR 2))
         (seq 0 Driver.SAMPLES_PER_SIZE)).
Proof.
  apply (triple_slack_trials (fun _ => "a"%string)
           (Categorical.train ["a"; "b"]%string) 2%nat 0%nat).
  apply Nat.lt_0_succ.
Defined.

(** X17.  One sample size consumes [2 * SAMPLES_PER_SIZE * sampleSize]
    draws, and a whole population
    [2 * SAMPLES_PER_SIZE * (2 + 4 + ... + 512)]. *)
Theorem draws_consumed (draws : nat -> string) (pop : list string)
    (sampleSize k : nat) :
  snd (Driver.triple draws (Categorical.train pop) sampleSize k) =
    (k + 2 * Driver.SAMPLES_PER_SIZE * sampleSize)%nat /\
  snd (Driver.triples draws pop k) =
    (k + 2 * Driver.SAMPLES_PER_SIZE * 1022)%nat.
Proof.
  split.
  - rewrite triple_run. cbn [snd].
    generalize Driver.SAMPLES_PER_SIZE. intros T.
    rewrite <- Nat.mul_assoc. lia.
  - unfold Driver.triples.
    rewrite (mapM_steps
               (fun s => (Driver.SAMPLES_PER_SIZE * s
                          + Driver.SAMPLES_PER_SIZE * s)%nat)).
    + generalize Driver.SAMPLES_PER_SIZE. intros T.
      unfold Driver.SAMPLE_SIZES, list_sum. cbn [map fold_right]. lia.
    + intros s j. rewrite triple_run. cbn [snd]. apply eq_sym, Nat.add_assoc.
Qed.



(** X19.  For a positive sample size the slack-corrected average is a
    number between 0 and 19.38, the bounds of an expected reward with
    the largest slack 0.95 added. *)
Theorem triple_exSlackRew_bounds (draws : nat -> string)
    (popcat : Categorical.t) (sampleSize k : nat) :
  (0 < sampleSize)%nat ->
  exists m : R,
    Driver.tri_exSlackRew (fst (Driver.triple draws popcat sampleSize k))
      = Some m /\
    0 <= m <= 19.38.
Proof.
  intros Hs.
  rewrite triple_run. cbn [fst Driver.tri_exSlackRew].
  rewrite lodash_mean_some by apply trials_nonempty.
  eexists. split; [reflexivity|].
  assert (Hx : 0 < INR sampleSize) by (apply lt_0_INR; exact Hs).
  assert (Hpos : 0 < slack (INR sampleSize)).
  { rewrite slack_eq. pose proof (exp_pos (- (ln (INR sampleSize) ^ 2 / 6))). lra. }
  assert (Hle : slack (INR sampleSize) <= 0.95).
  { rewrite slack_eq.
    assert (Ht : - (ln (INR sampleSize) ^ 2 / 6) <= 0).
    { pose proof (pow2_ge_0 (ln (INR sampleSize))). lra. }
    pose proof (exp_nonpos_le_1 _ Ht). lra. }
  assert (Htop : 2 * logit (1 - prec) < 18.43).
  { rewrite logit_top.
    replace ((1 - 0.0001) / 0.0001) with 9999 by lra.
    pose proof ln_9999_bounds. lra. }
  apply mean_between; [apply trials_nonempty|].
  apply Forall_forall. intros r Hr.
  apply in_map_iff in Hr. destruct Hr as (j & <- & _).
  pose proof (rewardAt_between draws popcat sampleSize
                (k + Driver.SAMPLES_PER_SIZE * sampleSize + j * sampleSize))
    as Hb.
  lra.
Qed.

Lemma triple_exSlackRew_bounds_witness :
  exists m : R,
    Driver.tri_exSlackRew
      (fst (Driver.triple (fun _ => "a"%string)
              (Categorical.train ["a"; "b"]%string) 2 0%nat)) = Some m /\
    0 <= m <= 19.38.
Proof.
  apply (triple_exSlackRew_bounds (fun _ => "a"%string)
           (Categorical.train ["a"; "b"]%string) 2%nat 0%nat).
  apply Nat.lt_0_succ.
Defined.

(** ** Unseen events *)

Lemma logit_bottom : logit prec = - ln 9999.
Proof.
  pose proof (logit_compl prec) as Hc.
  pose proof prec_pos. pose proof prec_lt_half.
  assert (Ht : logit (1 - prec) = ln 9999).
  { rewrite logit_top. f_equal. lra. }
  lra.
Qed.

(** X20.  An event the candidate has (almost) never seen is heavily
    penalised: when the candidate's probability is at most 0.0001 and
    the reference probability at least 0.5, the reward is below
    -9.21. *)
Theorem reward_unseen_penalty (prior p : R) :
  0.5 <= prior -> p <= 0.0001 -> reward prior p < - 9.21.
Proof.
  intros Hprior Hp.
  assert (E : prec = 0.0001) by reflexivity.
  rewrite reward_logit, (clamp_prec_below p) by lra.
  rewrite logit_bottom.
  pose proof (logit_clamp_mono 0.5 prior Hprior) as Hm.
  rewrite (clamp_prec_id 0.5), logit_half in Hm by lra.
  pose proof ln_9999_bounds. lra.
Qed.

Lemma reward_unseen_penalty_witness : reward 0.5 0 < - 9.21.
Proof. apply (reward_unseen_penalty 0.5 0); lra. Defined.

(** ** Rounding of doubles

    Two places where the last binary place of the arithmetic of
    [reward] decides: the odds at the upper clamp, and the odds of two
    neighbouring doubles. *)

Lemma odds64_top :
  Prim2SF (Binary64.clamp 1 Binary64.prec (1 - Binary64.prec)
           / (1 - Binary64.clamp 1 Binary64.prec (1 - Binary64.prec)))%float
  = S754_finite false 5497008383066717 (-39).
Proof. vm_compute. reflexivity. Qed.

Lemma odds64_bottom :
  Prim2SF (Binary64.clamp 0 Binary64.prec (1 - Binary64.prec)
           / (1 - Binary64.clamp 0 Binary64.prec (1 - Binary64.prec)))%float
  = S754_finite false 7379435573041125 (-66).
Proof. vm_compute. reflexivity. Qed.

Lemma finite_top :
  Binary64.finite false 5497008383066717 (-39) =
  5497008383066717 / 549755813888.
Proof. reflexivity. Qed.

Lemma finite_bottom :
  Binary64.finite false 7379435573041125 (-66) =
  7379435573041125 / 73786976294838206464.
Proof. reflexivity. Qed.

(** C10, refuted as stated: on doubles [1 - 0.9999] is a little less
    than 0.0001, so the odds at the upper clamp are a little more than
    9999, and [reward(0, 1)] exceeds [2 * ln ((1 - 0.0001) / 0.0001)]
    by more than 1e-13: far more than the rounding of the two
    logarithms and of their difference, which is left out here. *)
Lemma reward64_exceeds_logit_bound :
  exists r : R,
    Binary64.reward 0 1 = Some r /\
    2 * ln ((1 - 0.0001) / 0.0001) + 1e-13 < r.
Proof.
  unfold Binary64.reward, Binary64.log. cbv zeta.
  rewrite odds64_top, odds64_bottom.
  eexists. split; [reflexivity|].
  rewrite finite_top, finite_bottom.
  replace ((1 - 0.0001) / 0.0001) with 9999 by lra.
  rewrite <- ln_quot by lra.
  replace (2 * ln 9999) with (ln (9999 * 9999)) by (rewrite ln_mult; lra).
  rewrite <- (ln_exp 1e-13) at 1.
  pose proof (exp_pos 1e-13) as He.
  rewrite <- ln_mult by lra.
  apply ln_increasing; [nra|].
  pose proof (exp_le_inv_1m 1e-13) as Hu.
  apply Rle_lt_trans with (r2 := 9999 * 9999 * / (1 - 1e-13)).
  - apply Rmult_le_compat_l; [lra | apply Hu; lra].
  - lra.
Qed.

Lemma odds64_left :
  Prim2SF (Binary64.clamp 0.4226913456443508 Binary64.prec (1 - Binary64.prec)
           / (1 - Binary64.clamp 0.4226913456443508 Binary64.prec
                    (1 - Binary64.prec)))%float
  = S754_finite false 6594852068730309 (-53).
Proof. vm_compute. reflexivity. Qed.

Lemma odds64_right :
  Prim2SF (Binary64.clamp 0.42269134564435085 Binary64.prec (1 - Binary64.prec)
           / (1 - Binary64.clamp 0.42269134564435085 Binary64.prec
                    (1 - Binary64.prec)))%float
  = S754_finite false 6594852068730309 (-53).
Proof. vm_compute. reflexivity. Qed.

(** Why the sign of the reward is not strict: two neighbouring doubles
    inside the clamp range, the second greater than the first, have the
    same odds on doubles, and the reward between them is 0. *)
Lemma reward64_zero_between_neighbours :
  (0.4226913456443508 <? 0.42269134564435085)%float = true /\
  Binary64.reward 0.4226913456443508 0.42269134564435085 = Some 0.
Proof.
  split; [vm_compute; reflexivity|].
  unfold Binary64.reward, Binary64.log. cbv zeta.
  rewrite odds64_left, odds64_right.
  f_equal. ring.
Qed.
